(** * fastify-starter: the items CRUD service

    A shallow embedding of the item-management core of the repository
    (routes/itemsServices.js, routes/itemsController.js,
    routes/itemsSchema.js, routes/itemsHandler.js) and the properties of its
    specification.

    The module-level array [items] of data/items.js and the entropy consumed
    by [uuidv4] form the process state [World]; the services and the
    controllers are written in a small state-and-exception monad [Js] over
    it.  JavaScript arrays are lists, [findIndex]/[find] are stdpp's
    [list_find], [splice(index, 1)] is [delete], and the in-place assignment
    [items[index].name = name] is a list insert at [index]. *)

From Stdlib Require Import ZArith.
From stdpp Require Import base tactics option list strings.

Local Open Scope string_scope.
Local Open Scope list_scope.
Local Set Warnings "-register-all".

(** ** JavaScript values *)

(** The values a parsed JSON body, or a property read from it, can take.
    [VUndefined] is what reading a missing property gives. *)
Inductive value : Type :=
  | VUndefined
  | VNull
  | VBool (b : bool)
  | VNum (n : Z)
  | VStr (s : string)
  | VArr (elements : list value)
  | VObj (fields : list (string * value)).

(** Own-property lookup in the field list of an object. *)
Fixpoint assoc (k : string) (fields : list (string * value)) : option value :=
  match fields with
  | [] => None
  | (k', v) :: rest => if decide (k = k') then Some v else assoc k rest
  end.

(** [v[k]] for a value [v] that is neither [undefined] nor [null]: a missing
    property reads as [undefined]; the primitives and the arrays a JSON body
    can hold have no property called [name]. *)
Definition get_prop (v : value) (k : string) : value :=
  match v with
  | VObj fields => default VUndefined (assoc k fields)
  | _ => VUndefined
  end.

(** ** Items and the process state *)

(** An item is the object [{ id, name }].  Ids are strings (the literals of
    the data file and the results of [uuidv4]); [name] is whatever value the
    caller handed to the service. *)
Module Item.
Record t : Type := mk { id : string; name : value }.

(** The object as a value, for [reply.send]. *)
Definition to_value (it : t) : value :=
  VObj [("id", VStr (id it)); ("name", name it)].
End Item.

(** [items] is the exported array of data/items.js, shared by every request.
    [uuid_stream] is the sequence of strings the [uuid] package will hand
    out in this run of the process and [uuid_calls] counts the draws made so
    far: the package is external and random, so its results belong to the
    environment. *)
Record World : Type := mkWorld {
  items : list Item.t;
  uuid_stream : nat -> string;
  uuid_calls : nat
}.

Definition set_items (w : World) (l : list Item.t) : World :=
  {| items := l; uuid_stream := uuid_stream w; uuid_calls := uuid_calls w |}.

(** ** The [Js] monad: state passing with exceptions *)

Inductive jsError : Type :=
  | TypeError (msg : string).

Inductive completion (A : Type) : Type :=
  | Normal (a : A) (w : World)
  | Abrupt (e : jsError) (w : World).
Arguments Normal {A} a w.
Arguments Abrupt {A} e w.

Definition Js (A : Type) : Type := World -> completion A.

Global Instance Js_ret : MRet Js := fun A a w => Normal a w.

Global Instance Js_bind : MBind Js := fun A B f m w =>
  match m w with
  | Normal a w' => f a w'
  | Abrupt e w' => Abrupt e w'
  end.

Definition throw {A} (e : jsError) : Js A := fun w => Abrupt e w.

Definition get_items : Js (list Item.t) := fun w => Normal (items w) w.

Definition put_items (l : list Item.t) : Js unit :=
  fun w => Normal tt (set_items w l).

(** [uuidv4()]: the next string of the stream. *)
Definition uuidv4 : Js string := fun w =>
  Normal (uuid_stream w (uuid_calls w))
         {| items := items w;
            uuid_stream := uuid_stream w;
            uuid_calls := S (uuid_calls w) |}.

(** ** routes/itemsServices.js *)

Module services.

(** The callback [(item) => item.id === id]. *)
Definition has_id (id : string) (item : Item.t) : Prop := Item.id item = id.

Global Instance has_id_dec id item : Decision (has_id id item).
Proof. unfold has_id. apply _. Defined.

(** [getAll()]: the array itself. *)
Definition getAll : Js (list Item.t) := get_items.

(** [findId(id)]: [items.find(...)], the first item with that id, or
    [undefined] ([None]). *)
Definition findId (id : string) : Js (option Item.t) :=
  l ← get_items;
  mret (snd <$> list_find (has_id id) l).

(** [add(name)]: builds [{ id: uuidv4(), name }], pushes it, returns it. *)
Definition add (name : value) : Js Item.t :=
  id ← uuidv4;
  let item := Item.mk id name in
  l ← get_items;
  put_items (l ++ [item]);;
  mret item.

(** [remove(id)]: [findIndex], then [null] ([None]) when the index is -1,
    else [items.splice(index, 1)[0]]. *)
Definition remove (id : string) : Js (option Item.t) :=
  l ← get_items;
  match list_find (has_id id) l with
  | None => mret None
  | Some (index, item) =>
      put_items (delete index l);;
      mret (Some item)
  end.

(** [update(id, name)]: [findIndex], then [null] ([None]) when the index
    is -1, else [items[index].name = name] and the object at [index]. *)
Definition update (id : string) (name : value) : Js (option Item.t) :=
  l ← get_items;
  match list_find (has_id id) l with
  | None => mret None
  | Some (index, item) =>
      let item' := Item.mk (Item.id item) name in
      put_items (<[index := item']> l);;
      mret (Some item')
  end.

End services.

(** ** routes/itemsSchema.js *)

(** The fragment of JSON Schema the file uses: [{ type: "string" }],
    [{ type: "object", required, properties }] and
    [{ type: "array", items }]. *)
Inductive json_schema : Type :=
  | SString
  | SObject (required : list string) (properties : list (string * json_schema))
  | SArray (elements : json_schema).

Module schema.

(** A route schema: an optional [body] contract for the input and the
    [response] contracts by status code. *)
Record t : Type := mk {
  body : option json_schema;
  response : list (nat * json_schema)
}.

Definition Item : json_schema :=
  SObject [] [("id", SString); ("name", SString)].

Definition getItemsSchema : t :=
  {| body := None; response := [(200, SArray Item)] |}.

Definition getItemSchema : t :=
  {| body := None; response := [(200, Item)] |}.

Definition addItemSchema : t :=
  {| body := Some (SObject ["name"] [("name", SString)]);
     response := [(201, Item)] |}.

Definition deleteItemSchema : t :=
  {| body := None;
     response := [(200, SObject [] [("message", SString)])] |}.

(** No [body] entry: the route declares a response contract only. *)
Definition updateItemSchema : t :=
  {| body := None; response := [(200, Item)] |}.

End schema.

(** ** The schema validator *)

Inductive violation : Type :=
  | MissingRequired (field : string)
  | WrongType (field : string) (expected : string).

Module validator.

(** A property counts as present when reading it does not give
    [undefined]. *)
Definition present (v : value) : bool :=
  match v with VUndefined => false | _ => true end.

Definition missing (payload : value) (required : list string) : list violation :=
  MissingRequired <$> filter (fun k => present (get_prop payload k) = false) required.

(** Modelled from the spec: the validation routine is the web framework's
    and is not among the sources.  [validate payload schema] gives the list
    of violations, empty when the payload is acceptable; a violation names
    the offending field and the expectation violated (a required field that
    is missing, a wrong type).  [field] names the place of [payload]. *)
Fixpoint validate (field : string) (s : json_schema) (payload : value)
    : list violation :=
  match s with
  | SString =>
      match payload with
      | VStr _ => []
      | _ => [WrongType field "string"]
      end
  | SArray s' =>
      match payload with
      | VArr vs => vs ≫= validate field s'
      | _ => [WrongType field "array"]
      end
  | SObject required properties =>
      match payload with
      | VObj fields =>
          missing payload required ++
          (fix each (ps : list (string * json_schema)) : list violation :=
             match ps with
             | [] => []
             | (k, s') :: ps' =>
                 match assoc k fields with
                 | Some v => if present v then validate k s' v else []
                 | None => []
                 end ++ each ps'
             end) properties
      | _ => [WrongType field "object"]
      end
  end.

End validator.

(** ** routes/itemsController.js *)

(** The request object handed to a handler: [req.params] and [req.body]
    ([VUndefined] when the request carried none).  [P] is the shape of
    [req.params] on the route. *)
Record request (P : Type) : Type := mkRequest {
  params : P;
  body : value
}.
Arguments mkRequest {P} params body.
Arguments params {P} r.
Arguments body {P} r.

(** [req.params] on the routes without a placeholder, and on [/items/:id]. *)
Record NoParams : Type := no_params {}.

Module IdParams.
Record t : Type := mk { id : string }.
End IdParams.

(** What the handler left in [reply]: the status code and the payload given
    to [send]. *)
Record reply : Type := mkReply {
  statusCode : nat;
  payload : value
}.

(** [reply.code(c).send(p)], and [reply.send(p)] with the default status. *)
Definition code_send (c : nat) (p : value) : Js reply := mret (mkReply c p).
Definition send (p : value) : Js reply := code_send 200 p.

(** [const { name } = req.body]: destructuring [undefined] or [null] throws
    a [TypeError], any other value is read at [name]. *)
Definition destructure_name (b : value) : Js value :=
  match b with
  | VUndefined | VNull =>
      throw (TypeError "Cannot destructure property 'name' of 'req.body'")
  | _ => mret (get_prop b "name")
  end.

(** The object [{ message }]. *)
Definition message (s : string) : value := VObj [("message", VStr s)].

Module controller.

Definition getItems (req : request NoParams) : Js reply :=
  l ← services.getAll;
  send (VArr (Item.to_value <$> l)).

Definition getItem (req : request IdParams.t) : Js reply :=
  let id := IdParams.id (params req) in
  item ← services.findId id;
  match item with
  | None => code_send 404 (message ("Item " +:+ id +:+ " not found"))
  | Some item => send (Item.to_value item)
  end.

Definition addItem (req : request NoParams) : Js reply :=
  name ← destructure_name (body req);
  item ← services.add name;
  code_send 201 (Item.to_value item).

Definition deleteItem (req : request IdParams.t) : Js reply :=
  let id := IdParams.id (params req) in
  deleted ← services.remove id;
  match deleted with
  | None => code_send 404 (message ("Item " +:+ id +:+ " not found"))
  | Some _ => send (message ("Item " +:+ id +:+ " has been removed"))
  end.

Definition updateItem (req : request IdParams.t) : Js reply :=
  let id := IdParams.id (params req) in
  name ← destructure_name (body req);
  updated ← services.update id name;
  match updated with
  | None => code_send 404 (message ("Item " +:+ id +:+ " not found"))
  | Some updated => send (Item.to_value updated)
  end.

End controller.

(** ** routes/itemsHandler.js *)

Inductive http_method : Type := GET | POST | PUT | DELETE.

Global Instance http_method_eq_dec : EqDecision http_method.
Proof. solve_decision. Defined.

(** The two url patterns of the plugin, indexed by the shape of the
    [req.params] they produce: ["/items"] and ["/items/:id"]. *)
Inductive pattern : Type -> Type :=
  | items_url : pattern NoParams
  | item_url : pattern IdParams.t.

Record route : Type := mkRoute {
  route_method : http_method;
  route_params : Type;
  route_url : pattern route_params;
  route_schema : schema.t;
  route_handler : request route_params -> Js reply
}.

(** [itemRoutes(fastify, options)]: the routes in registration order. *)
Definition itemRoutes : list route :=
  [ mkRoute GET NoParams items_url schema.getItemsSchema controller.getItems;
    mkRoute GET IdParams.t item_url schema.getItemSchema controller.getItem;
    mkRoute POST NoParams items_url schema.addItemSchema controller.addItem;
    mkRoute DELETE IdParams.t item_url schema.deleteItemSchema controller.deleteItem;
    mkRoute PUT IdParams.t item_url schema.updateItemSchema controller.updateItem ].

(** ** The dispatcher *)

(** A parsed request: the method, the path split at its slashes, and the
    body ([VUndefined] when there is none). *)
Record http_request : Type := mkHttp {
  http_method_of : http_method;
  http_path : list string;
  http_body : value
}.

(** What the caller gets back: the reply of a handler, a validation
    rejection, an unknown route, or a fault of the handler. *)
Inductive response : Type :=
  | Replied (r : reply)
  | BadRequest (violations : list violation)
  | NoRoute
  | ServerError (e : jsError).

Definition status (r : response) : nat :=
  match r with
  | Replied r => statusCode r
  | BadRequest _ => 400
  | NoRoute => 404
  | ServerError _ => 500
  end.

(** Modelled from the spec: matching a path against a pattern is the web
    framework's work.  A pattern has at most one placeholder, the trailing
    [:id], whose segment becomes [req.params.id]. *)
Definition match_url {P} (pat : pattern P) (path : list string) : option P :=
  match pat with
  | items_url =>
      match path with
      | ["items"] => Some no_params
      | _ => None
      end
  | item_url =>
      match path with
      | ["items"; id] => Some (IdParams.mk id)
      | _ => None
      end
  end.

(** Runs the handler; a fault it throws becomes a generic server error. *)
Definition call_handler {P} (h : request P -> Js reply) (req : request P)
    : Js response :=
  fun w =>
    match h req w with
    | Normal r w' => Normal (Replied r) w'
    | Abrupt e w' => Normal (ServerError e) w'
    end.

(** Modelled from the spec: the dispatch algorithm of the web framework,
    which is not among the sources.  The body is validated against the
    route's input schema when it declares one; a violation gives a 400
    outcome carrying the violations and the handler is not run; otherwise
    the handler runs. *)
Definition run_route (r : route) (p : route_params r) (b : value) : Js response :=
  match schema.body (route_schema r) with
  | None => call_handler (route_handler r) (mkRequest p b)
  | Some s =>
      match validator.validate "body" s b with
      | [] => call_handler (route_handler r) (mkRequest p b)
      | violations => mret (BadRequest violations)
      end
  end.

(** Modelled from the spec: the first registered route whose method and
    pattern match the request is run. *)
Fixpoint dispatch_on (routes : list route) (req : http_request) : Js response :=
  match routes with
  | [] => mret NoRoute
  | r :: routes' =>
      if decide (route_method r = http_method_of req) then
        match match_url (route_url r) (http_path req) with
        | Some p => run_route r p (http_body req)
        | None => dispatch_on routes' req
        end
      else dispatch_on routes' req
  end.

Definition dispatch : http_request -> Js response := dispatch_on itemRoutes.

(** ** Sample states *)

(** The three records the project's guide gives for data/items.js, and a
    stream of identifiers that never repeats: it starts with the identifier
    of the guide's sample answer and grows by one character a draw. *)
Definition sample_items : list Item.t :=
  [ Item.mk "1" (VStr "Item One");
    Item.mk "2" (VStr "Item Two");
    Item.mk "3" (VStr "Item Three") ].

Fixpoint zeros (n : nat) : string :=
  match n with
  | 0 => ""
  | S n' => "0" +:+ zeros n'
  end.

Definition sample_uuids (n : nat) : string :=
  "f42bc39c-3264-4ce5-9c58-830c53dec0cc" +:+ zeros n.

Definition sample_world : World := mkWorld sample_items sample_uuids 0.

(** A store that already holds a record under the identifier the generator
    hands out next: [add] looks at no existing id before it pushes. *)
Definition collision_world : World :=
  mkWorld [Item.mk "f42bc39c-3264-4ce5-9c58-830c53dec0cc" (VStr "Item One")]
          sample_uuids 0.

(** A store in which two records carry the id ["1"]. *)
Definition duplicate_world : World :=
  mkWorld [Item.mk "1" (VStr "Item One"); Item.mk "1" (VStr "Item Two")]
          sample_uuids 0.

(** The update schema as the project's guide prints it, with the body
    contract of [addItemSchema], and the route table it would give.  The
    source file leaves the [body] entry out. *)
Definition guide_updateItemSchema : schema.t :=
  {| schema.body := Some (SObject ["name"] [("name", SString)]);
     schema.response :=
       [(200, SObject ["id"; "name"] [("id", SString); ("name", SString)])] |}.

Definition guide_itemRoutes : list route :=
  [ mkRoute GET NoParams items_url schema.getItemsSchema controller.getItems;
    mkRoute GET IdParams.t item_url schema.getItemSchema controller.getItem;
    mkRoute POST NoParams items_url schema.addItemSchema controller.addItem;
    mkRoute DELETE IdParams.t item_url schema.deleteItemSchema controller.deleteItem;
    mkRoute PUT IdParams.t item_url guide_updateItemSchema controller.updateItem ].

(** ** Serving requests, and the states in which ids are unique *)

(** The state a computation leaves, however it completes. *)
Definition world_after {A} (c : completion A) : World :=
  match c with
  | Normal _ w => w
  | Abrupt _ w => w
  end.

(** The requests of a run, served one after the other. *)
Fixpoint serve (requests : list http_request) (w : World) : World :=
  match requests with
  | [] => w
  | req :: rest => serve rest (world_after (dispatch req w))
  end.

Definition ids (w : World) : list string := Item.id <$> items w.

(** The identifiers still to be drawn are not in the store and do not
    repeat. *)
Definition fresh_uuids (w : World) : Prop :=
  (forall n, uuid_calls w <= n -> uuid_stream w n ∉ ids w) /\
  (forall m n, uuid_calls w <= m -> m < n -> uuid_stream w m <> uuid_stream w n).

Definition unique_ids (w : World) : Prop :=
  NoDup (ids w) /\ fresh_uuids w.

(** A computation that takes states with unique ids to such states. *)
Definition keeps_unique_ids {A} (m : Js A) : Prop :=
  forall w, unique_ids w -> unique_ids (world_after (m w)).

(** ** Names that are strings, and the declared response contracts *)

(** Every record of the store has a string for a name. *)
Definition string_names (w : World) : Prop :=
  Forall (fun item => exists s, Item.name item = VStr s) (items w).


(** * Properties *)

(** ** Searching the store by id *)

Section find.
Implicit Types (l : list Item.t) (id : string) (item : Item.t).

Lemma find_first l id index item :
  list_find (services.has_id id) l = Some (index, item) <->
  l !! index = Some item /\ Item.id item = id /\
  forall j item', l !! j = Some item' -> j < index -> Item.id item' <> id.
Proof. rewrite list_find_Some. reflexivity. Qed.

Lemma find_absent l id :
  list_find (services.has_id id) l = None <->
  forall item, item ∈ l -> Item.id item <> id.
Proof. rewrite list_find_None, Forall_forall. reflexivity. Qed.

Lemma find_present l id :
  (exists item, item ∈ l /\ Item.id item = id) ->
  exists index item, list_find (services.has_id id) l = Some (index, item).
Proof.
  intros (item & Hin & Hid).
  destruct (list_find_elem_of (services.has_id id) l item Hin Hid) as [[i x] Hx].
  eauto.
Qed.

(** In a store without duplicate ids, taking out the item found at [index]
    leaves no item with that id. *)
Lemma delete_unique_id l id index item :
  NoDup (Item.id <$> l) ->
  l !! index = Some item -> Item.id item = id ->
  forall item', item' ∈ delete index l -> Item.id item' <> id.
Proof.
  intros Hnd Hi Hid item' Hin Heq.
  rewrite <- (take_drop_middle l index item Hi) in Hnd.
  rewrite fmap_app, fmap_cons in Hnd.
  apply NoDup_app in Hnd as (_ & Hdisj & Hnd).
  apply NoDup_cons in Hnd as [Hnotin _].
  rewrite delete_take_drop in Hin.
  apply elem_of_app in Hin as [Hin | Hin].
  - apply (Hdisj (Item.id item')).
    + by apply list_elem_of_fmap_2.
    + rewrite Heq, <- Hid. left.
  - apply Hnotin. rewrite Hid, <- Heq. by apply list_elem_of_fmap_2.
Qed.

End find.

(** ** The services, step by step *)

Lemma findId_run id w :
  services.findId id w =
  Normal (snd <$> list_find (services.has_id id) (items w)) w.
Proof. reflexivity. Qed.

Lemma add_run name w :
  let item := Item.mk (uuid_stream w (uuid_calls w)) name in
  services.add name w =
  Normal item (mkWorld (items w ++ [item]) (uuid_stream w) (S (uuid_calls w))).
Proof. reflexivity. Qed.

Lemma remove_absent id w :
  list_find (services.has_id id) (items w) = None ->
  services.remove id w = Normal None w.
Proof.
  intros H. unfold services.remove, get_items, mbind, Js_bind. by rewrite H.
Qed.

Lemma remove_found id w index item :
  list_find (services.has_id id) (items w) = Some (index, item) ->
  services.remove id w = Normal (Some item) (set_items w (delete index (items w))).
Proof.
  intros H. unfold services.remove, get_items, mbind, Js_bind. by rewrite H.
Qed.

Lemma update_absent id name w :
  list_find (services.has_id id) (items w) = None ->
  services.update id name w = Normal None w.
Proof.
  intros H. unfold services.update, get_items, mbind, Js_bind. by rewrite H.
Qed.

Lemma update_found id name w index item :
  list_find (services.has_id id) (items w) = Some (index, item) ->
  services.update id name w =
  Normal (Some (Item.mk (Item.id item) name))
         (set_items w (<[index := Item.mk (Item.id item) name]> (items w))).
Proof.
  intros H. unfold services.update, get_items, mbind, Js_bind. by rewrite H.
Qed.


(** ** Routing *)

(** Where the table of [itemRoutes] sends each of the five kinds of
    request. *)
Lemma route_get_items b :
  dispatch (mkHttp GET ["items"] b) =
  call_handler controller.getItems (mkRequest no_params b).
Proof. reflexivity. Qed.

Lemma route_get_item id b :
  dispatch (mkHttp GET ["items"; id] b) =
  call_handler controller.getItem (mkRequest (IdParams.mk id) b).
Proof. reflexivity. Qed.

Lemma route_post b :
  dispatch (mkHttp POST ["items"] b) =
  match validator.validate "body" (SObject ["name"] [("name", SString)]) b with
  | [] => call_handler controller.addItem (mkRequest no_params b)
  | violations => mret (BadRequest violations)
  end.
Proof. reflexivity. Qed.

Lemma route_delete id b :
  dispatch (mkHttp DELETE ["items"; id] b) =
  call_handler controller.deleteItem (mkRequest (IdParams.mk id) b).
Proof. reflexivity. Qed.

Lemma route_put id b :
  dispatch (mkHttp PUT ["items"; id] b) =
  call_handler controller.updateItem (mkRequest (IdParams.mk id) b).
Proof. reflexivity. Qed.

(** ** The scenarios of the specification *)

Example scenario_find :
  let w := mkWorld [Item.mk "1" (VStr "Item One")] sample_uuids 0 in
  services.findId "1" w = Normal (Some (Item.mk "1" (VStr "Item One"))) w /\
  services.findId "9" w = Normal None w /\
  dispatch (mkHttp GET ["items"; "9"] VUndefined) w =
    Normal (Replied (mkReply 404 (message "Item 9 not found"))) w.
Proof. repeat split. Qed.

Example scenario_create :
  exists id w',
    services.add (VStr "Jerome") (mkWorld [] sample_uuids 0) =
      Normal (Item.mk id (VStr "Jerome")) w' /\
    services.getAll w' = Normal [Item.mk id (VStr "Jerome")] w'.
Proof. eexists _, _. split; [apply add_run | reflexivity]. Qed.

Example scenario_post_empty :
  dispatch (mkHttp POST ["items"] (VObj [])) sample_world =
    Normal (BadRequest [MissingRequired "name"]) sample_world.
Proof. reflexivity. Qed.

Example scenario_post :
  exists w',
    dispatch (mkHttp POST ["items"] (VObj [("name", VStr "Jerome")])) sample_world =
      Normal (Replied (mkReply 201
                (VObj [("id", VStr "f42bc39c-3264-4ce5-9c58-830c53dec0cc");
                       ("name", VStr "Jerome")]))) w' /\
    length (items w') = 4.
Proof. eexists. split; reflexivity. Qed.

Example scenario_update :
  (exists w',
     services.update "2" (VStr "Updated Item Two") sample_world =
       Normal (Some (Item.mk "2" (VStr "Updated Item Two"))) w') /\
  services.update "999" (VStr "x") sample_world = Normal None sample_world /\
  dispatch (mkHttp PUT ["items"; "999"] (VObj [("name", VStr "x")])) sample_world =
    Normal (Replied (mkReply 404 (message "Item 999 not found"))) sample_world.
Proof.
  split; [| split; reflexivity].
  eexists.
  exact (update_found "2" _ sample_world 1 (Item.mk "2" (VStr "Item Two")) eq_refl).
Qed.

(** A PUT without any body faults in the handler, before the service runs. *)
Example scenario_put_no_body :
  exists e,
    dispatch (mkHttp PUT ["items"; "1"] VUndefined) sample_world =
      Normal (ServerError e) sample_world.
Proof. eexists. reflexivity. Qed.

(** ** PUT /items/:id without a name *)

(** C1 (the code departs from the claim): the update route declares no body
    schema, so a PUT whose body lacks [name] is not rejected.  On the sample
    store, [PUT /items/1] with the body [{}] runs [services.update] with an
    undefined name, answers 200 and leaves the first record without a name;
    the answer is not the 400 the claim asks for. *)
Theorem put_without_name_reaches_update :
  schema.body schema.updateItemSchema = None /\
  exists w',
    dispatch (mkHttp PUT ["items"; "1"] (VObj [])) sample_world =
      Normal (Replied (mkReply 200 (VObj [("id", VStr "1"); ("name", VUndefined)]))) w' /\
    items w' =
      [ Item.mk "1" VUndefined;
        Item.mk "2" (VStr "Item Two");
        Item.mk "3" (VStr "Item Three") ] /\
    services.update "1" VUndefined sample_world =
      Normal (Some (Item.mk "1" VUndefined)) w'.
Proof.
  split; [reflexivity |].
  eexists. split; [reflexivity |]. split; reflexivity.
Qed.

(** With the update schema of the guide the same request is rejected before
    the handler runs, as the POST is. *)
Example put_without_name_guide_schema :
  dispatch_on guide_itemRoutes (mkHttp PUT ["items"; "1"] (VObj [])) sample_world =
    Normal (BadRequest [MissingRequired "name"]) sample_world.
Proof. reflexivity. Qed.

(** ** create *)

(** C2, as stated, fails where the generator hands out an identifier that is
    already in the store: the record [add] returns then shares its id with
    an existing one. *)
Lemma add_id_already_present :
  (exists w',
     services.add (VStr "Jerome") collision_world =
       Normal (Item.mk "f42bc39c-3264-4ce5-9c58-830c53dec0cc" (VStr "Jerome")) w' /\
     items w' =
       [ Item.mk "f42bc39c-3264-4ce5-9c58-830c53dec0cc" (VStr "Item One");
         Item.mk "f42bc39c-3264-4ce5-9c58-830c53dec0cc" (VStr "Jerome") ]) /\
  ~ (forall item w',
       services.add (VStr "Jerome") collision_world = Normal item w' ->
       forall old, old ∈ items collision_world -> Item.id old <> Item.id item).
Proof.
  split.
  - eexists. split; [exact (add_run _ _) | reflexivity].
  - intros H.
    refine (H _ _ (add_run _ _) (Item.mk (sample_uuids 0) (VStr "Item One")) _ _).
    + left.
    + reflexivity.
Qed.

(** C2 (amended): for every name and every state, [add] succeeds, returns the
    record made of the identifier [uuidv4] handed out and of the name,
    appends it as the new last element and grows the store by exactly one;
    its id differs from every id already in the store whenever the
    identifier handed out is not already there ([add] itself checks
    nothing). *)
Theorem add_appends_minted_record (name : value) (w : World) :
  exists item w',
    services.add name w = Normal item w' /\
    item = Item.mk (uuid_stream w (uuid_calls w)) name /\
    items w' = items w ++ [item] /\
    last (items w') = Some item /\
    length (items w') = S (length (items w)) /\
    ((forall old, old ∈ items w -> Item.id old <> uuid_stream w (uuid_calls w)) ->
     forall old, old ∈ items w -> Item.id old <> Item.id item).
Proof.
  eexists _, _. split; [apply add_run |]. cbn.
  split; [reflexivity |]. split; [reflexivity |].
  split; [apply last_snoc |].
  split; [rewrite length_app; cbn; lia |].
  auto.
Qed.

Lemma add_appends_minted_record_witness :
  exists item w',
    services.add (VStr "Jerome") sample_world = Normal item w' /\
    items w' = sample_items ++ [item] /\
    forall old, old ∈ sample_items -> Item.id old <> Item.id item.
Proof.
  destruct (add_appends_minted_record (VStr "Jerome") sample_world)
    as (item & w' & Hrun & Hitem & Hitems & _ & _ & Hfresh).
  exists item, w'. split; [exact Hrun |]. split; [exact Hitems |].
  apply Hfresh. apply Forall_forall.
  repeat (constructor; [discriminate |]). constructor.
Defined.

(** ** update *)

(** C3: [update] on an id no item carries returns the absent value and
    leaves the whole state as it was; on an id some item carries it answers
    the record with that id and the new name, which now sits at the position
    of the first such item, and every other position and the length of the
    store are as before. *)
Theorem update_in_place (id : string) (name : value) (w : World) :
  ((forall item, item ∈ items w -> Item.id item <> id) ->
   services.update id name w = Normal None w) /\
  ((exists item, item ∈ items w /\ Item.id item = id) ->
   exists index old w',
     items w !! index = Some old /\ Item.id old = id /\
     (forall j item, items w !! j = Some item -> j < index -> Item.id item <> id) /\
     services.update id name w = Normal (Some (Item.mk id name)) w' /\
     items w' !! index = Some (Item.mk id name) /\
     length (items w') = length (items w) /\
     (forall j, j <> index -> items w' !! j = items w !! j) /\
     uuid_stream w' = uuid_stream w /\ uuid_calls w' = uuid_calls w).
Proof.
  split.
  - intros Habsent. apply update_absent. by apply find_absent.
  - intros Hpresent.
    destruct (find_present _ _ Hpresent) as (index & old & Hfind).
    pose proof Hfind as (Hlook & Hid & Hfirst)%find_first.
    exists index, old. eexists.
    split; [exact Hlook |]. split; [exact Hid |]. split; [exact Hfirst |].
    split; [rewrite (update_found _ _ _ _ _ Hfind), Hid; reflexivity |].
    cbn. split.
    + apply list_lookup_insert_eq. by eapply lookup_lt_Some.
    + split; [apply length_insert |].
      split; [| done].
      intros j Hj. by apply list_lookup_insert_ne.
Qed.

Lemma update_in_place_witness :
  services.update "999" (VStr "x") sample_world = Normal None sample_world /\
  exists index w',
    services.update "2" (VStr "Updated Item Two") sample_world =
      Normal (Some (Item.mk "2" (VStr "Updated Item Two"))) w' /\
    items w' !! index = Some (Item.mk "2" (VStr "Updated Item Two")).
Proof.
  split.
  - apply (update_in_place "999" (VStr "x") sample_world).
    apply Forall_forall.
    repeat (constructor; [discriminate |]). constructor.
  - destruct (update_in_place "2" (VStr "Updated Item Two") sample_world)
      as [_ Hfound].
    destruct Hfound as (index & old & w' & _ & _ & _ & Hrun & Hnew & _).
    + exists (Item.mk "2" (VStr "Item Two")). split; [| reflexivity].
      right. left.
    + exists index, w'. split; assumption.
Defined.

(** C10: the service looks at no property of [name].  For an id some item
    carries, [update] stores whatever value it is given, the empty string
    and [undefined] included, at the position of the first such item and
    returns the record; so a PUT on that id whose body has no [name], which
    no body schema stops, answers 200 and leaves a record whose name is
    [undefined] in the store. *)
Theorem update_stores_any_name (id : string) (w : World) :
  (exists item, item ∈ items w /\ Item.id item = id) ->
  exists index old,
    items w !! index = Some old /\ Item.id old = id /\
    (forall name, exists w',
       services.update id name w = Normal (Some (Item.mk id name)) w' /\
       items w' !! index = Some (Item.mk id name)) /\
    (forall b, b <> VUndefined -> b <> VNull -> get_prop b "name" = VUndefined ->
     exists w',
       dispatch (mkHttp PUT ["items"; id] b) w =
         Normal (Replied (mkReply 200 (Item.to_value (Item.mk id VUndefined)))) w' /\
       items w' !! index = Some (Item.mk id VUndefined)).
Proof.
  intros Hpresent.
  destruct (find_present _ _ Hpresent) as (index & old & Hfind).
  pose proof Hfind as (Hlook & Hid & _)%find_first.
  assert (Hstored : forall name,
    items (set_items w (<[index := Item.mk id name]> (items w))) !! index =
    Some (Item.mk id name)).
  { intros name. cbn. apply list_lookup_insert_eq. by eapply lookup_lt_Some. }
  exists index, old. split; [exact Hlook |]. split; [exact Hid |]. split.
  - intros name. eexists. split; [| apply Hstored].
    rewrite (update_found _ _ _ _ _ Hfind), Hid. reflexivity.
  - intros b Hundef Hnull Hname. eexists. split; [| apply (Hstored VUndefined)].
    rewrite route_put.
    unfold call_handler, controller.updateItem, mbind, Js_bind. cbn.
    assert (destructure_name b w = Normal VUndefined w) as ->.
    { destruct b; try done; cbn in *; by rewrite Hname. }
    rewrite (update_found _ _ _ _ _ Hfind), Hid. reflexivity.
Qed.

Lemma update_stores_any_name_witness :
  (exists w',
     services.update "2" (VStr "") sample_world =
       Normal (Some (Item.mk "2" (VStr ""))) w') /\
  (exists w',
     dispatch (mkHttp PUT ["items"; "2"] (VObj [])) sample_world =
       Normal (Replied (mkReply 200 (Item.to_value (Item.mk "2" VUndefined)))) w').
Proof.
  destruct (update_stores_any_name "2" sample_world)
    as (index & old & _ & _ & Hany & Hput).
  - exists (Item.mk "2" (VStr "Item Two")). split; [| reflexivity].
    right. left.
  - split.
    + destruct (Hany (VStr "")) as (w' & Hrun & _). by exists w'.
    + destruct (Hput (VObj [])) as (w' & Hrun & _); [done | done | reflexivity |].
      by exists w'.
Defined.

(** ** remove *)

(** C4, as stated, fails on a store in which two items carry the id:
    [remove] takes out the first and [findId] then finds the second. *)
Lemma remove_then_find_duplicate :
  (exists w',
     services.remove "1" duplicate_world =
       Normal (Some (Item.mk "1" (VStr "Item One"))) w' /\
     services.findId "1" w' = Normal (Some (Item.mk "1" (VStr "Item Two"))) w') /\
  ~ (forall removed w',
       services.remove "1" duplicate_world = Normal removed w' ->
       services.findId "1" w' = Normal None w').
Proof.
  split.
  - eexists.
    split; [exact (remove_found "1" duplicate_world 0 _ eq_refl) | reflexivity].
  - intros H.
    specialize (H _ _ (remove_found "1" duplicate_world 0 _ eq_refl)).
    discriminate H.
Qed.

(** C4 (amended): [remove] on an id no item carries returns the absent value
    and leaves the state as it was; on an id some item carries it takes the
    first such item out of the store, the items before and after it keeping
    their order, so that the store is shorter by exactly one, and returns
    that item; when the ids of the store are pairwise distinct, [findId] on
    that id then returns the absent value. *)
Theorem remove_first_match (id : string) (w : World) :
  ((forall item, item ∈ items w -> Item.id item <> id) ->
   services.remove id w = Normal None w) /\
  ((exists item, item ∈ items w /\ Item.id item = id) ->
   exists before removed after w',
     items w = before ++ removed :: after /\
     Item.id removed = id /\
     (forall item, item ∈ before -> Item.id item <> id) /\
     services.remove id w = Normal (Some removed) w' /\
     items w' = before ++ after /\
     S (length (items w')) = length (items w) /\
     uuid_stream w' = uuid_stream w /\ uuid_calls w' = uuid_calls w /\
     (NoDup (Item.id <$> items w) -> services.findId id w' = Normal None w')).
Proof.
  split.
  - intros Habsent. apply remove_absent. by apply find_absent.
  - intros Hpresent.
    destruct (find_present _ _ Hpresent) as (index & removed & Hfind).
    pose proof Hfind as (Hlook & Hid & Hfirst)%find_first.
    exists (take index (items w)), removed, (drop (S index) (items w)).
    eexists.
    split; [symmetry; by apply take_drop_middle |].
    split; [exact Hid |]. split.
    { intros item (j & Hj)%list_elem_of_lookup_1.
      apply lookup_take_Some in Hj as [Hj Hlt]. by eapply Hfirst. }
    split; [apply (remove_found _ _ _ _ Hfind) |]. cbn.
    split; [apply delete_take_drop |].
    split.
    { rewrite length_delete by eauto. apply lookup_lt_Some in Hlook. lia. }
    split; [done |]. split; [done |].
    intros Hnd. rewrite findId_run. cbn.
    assert (list_find (services.has_id id) (delete index (items w)) = None) as ->;
      [| reflexivity].
    apply find_absent. by eapply delete_unique_id.
Qed.

Lemma remove_first_match_witness :
  services.remove "9" sample_world = Normal None sample_world /\
  exists w',
    services.remove "2" sample_world =
      Normal (Some (Item.mk "2" (VStr "Item Two"))) w' /\
    length (items w') = 2 /\
    services.findId "2" w' = Normal None w'.
Proof.
  split.
  - apply (remove_first_match "9" sample_world).
    apply Forall_forall.
    repeat (constructor; [discriminate |]). constructor.
  - destruct (remove_first_match "2" sample_world) as [_ Hfound].
    destruct Hfound
      as (before & removed & after & w' & Hsplit & Hid & _ & Hrun & _ & Hlen & _ & _ & Hfind).
    + exists (Item.mk "2" (VStr "Item Two")). split; [| reflexivity].
      right. left.
    + exists w'.
      assert (Hnd : NoDup (Item.id <$> items sample_world)).
      { apply (bool_decide_unpack _). by vm_compute. }
      split.
      * rewrite Hrun. f_equal.
        rewrite (remove_found "2" sample_world 1 _ eq_refl) in Hrun.
        by injection Hrun as <- _.
      * split; [cbn in Hlen; lia | by apply Hfind].
Defined.

(** C8: in a store whose ids are pairwise distinct, once [remove] has
    returned an item for an id, removing that id again returns the absent
    value and leaves the state exactly as it was. *)
Theorem remove_twice (id : string) (w w1 : World) (removed : Item.t) :
  NoDup (Item.id <$> items w) ->
  services.remove id w = Normal (Some removed) w1 ->
  services.remove id w1 = Normal None w1.
Proof.
  intros Hnd Hrun.
  destruct (list_find (services.has_id id) (items w)) as [[index item] |] eqn:Hfind.
  - rewrite (remove_found _ _ _ _ Hfind) in Hrun.
    injection Hrun as _ <-.
    apply find_first in Hfind as (Hlook & Hid & _).
    apply remove_absent, find_absent. cbn.
    by eapply delete_unique_id.
  - rewrite (remove_absent _ _ Hfind) in Hrun. discriminate Hrun.
Qed.

Lemma remove_twice_witness :
  exists w1,
    services.remove "2" sample_world =
      Normal (Some (Item.mk "2" (VStr "Item Two"))) w1 /\
    services.remove "2" w1 = Normal None w1.
Proof.
  eexists. split; [apply (remove_found "2" sample_world 1); reflexivity |].
  apply (remove_twice "2" sample_world _ (Item.mk "2" (VStr "Item Two"))).
  - apply (bool_decide_unpack _). by vm_compute.
  - apply (remove_found "2" sample_world 1). reflexivity.
Defined.

(** ** create, then find *)

(** C9, as stated, fails where the identifier handed out is already in the
    store: [findId] returns the first item with that id, which is the older
    record and not the one [add] has just returned. *)
Lemma add_then_findId_collision :
  (exists w',
     services.add (VStr "Jerome") collision_world =
       Normal (Item.mk "f42bc39c-3264-4ce5-9c58-830c53dec0cc" (VStr "Jerome")) w' /\
     services.findId "f42bc39c-3264-4ce5-9c58-830c53dec0cc" w' =
       Normal (Some (Item.mk "f42bc39c-3264-4ce5-9c58-830c53dec0cc" (VStr "Item One"))) w') /\
  ~ (forall item w',
       services.add (VStr "Jerome") collision_world = Normal item w' ->
       services.findId (Item.id item) w' = Normal (Some item) w').
Proof.
  split.
  - eexists. split; [exact (add_run _ _) | reflexivity].
  - intros H. specialize (H _ _ (add_run _ _)). discriminate H.
Qed.

(** C9 (amended): for every name and every state in which no item carries
    the identifier [uuidv4] hands out next, [add] returns a record with that
    name and [findId] on its id, run on the state [add] left, returns that
    same record. *)
Theorem add_then_findId (name : value) (w : World) :
  (forall old, old ∈ items w -> Item.id old <> uuid_stream w (uuid_calls w)) ->
  exists item w',
    services.add name w = Normal item w' /\
    Item.name item = name /\
    services.findId (Item.id item) w' = Normal (Some item) w'.
Proof.
  intros Hfresh. eexists _, _. split; [apply add_run |].
  split; [reflexivity |].
  rewrite findId_run. cbn.
  rewrite list_find_app_r by by apply find_absent.
  cbn. by rewrite decide_True by reflexivity.
Qed.

Lemma add_then_findId_witness :
  exists item w',
    services.add (VStr "Jerome") sample_world = Normal item w' /\
    Item.name item = VStr "Jerome" /\
    services.findId (Item.id item) w' = Normal (Some item) w'.
Proof.
  apply (add_then_findId (VStr "Jerome") sample_world).
  apply Forall_forall.
  repeat (constructor; [discriminate |]). constructor.
Defined.

(** ** POST /items without a name *)

(** No payload in which [name] is missing passes the body contract of
    [addItemSchema]. *)
Lemma add_body_violations b :
  validator.present (get_prop b "name") = false ->
  exists v violations,
    validator.validate "body" (SObject ["name"] [("name", SString)]) b =
      v :: violations /\
    (forall fields, b = VObj fields -> v = MissingRequired "name").
Proof.
  intros Hmissing.
  destruct b; try (eexists _, _; split; [reflexivity | discriminate]).
  eexists _, _.
  split; [| intros ? _; reflexivity].
  cbn [validator.validate]. unfold validator.missing.
  rewrite filter_cons_True by exact Hmissing.
  reflexivity.
Qed.

(** C5: a POST on /items whose body has no [name] does not pass validation:
    the answer is a 400 carrying at least one violation (for a body that is
    an object, the missing required field [name]), and the state is the one
    before the request: no item was pushed and no identifier was drawn, so
    [services.add] did not run. *)
Theorem post_without_name_rejected (b : value) (w : World) :
  validator.present (get_prop b "name") = false ->
  exists v violations,
    dispatch (mkHttp POST ["items"] b) w = Normal (BadRequest (v :: violations)) w /\
    status (BadRequest (v :: violations)) = 400 /\
    (forall fields, b = VObj fields -> v = MissingRequired "name").
Proof.
  intros Hmissing.
  destruct (add_body_violations b Hmissing) as (v & violations & Hval & Hv).
  exists v, violations.
  rewrite route_post, Hval. auto.
Qed.

Lemma post_without_name_rejected_witness :
  exists violations,
    dispatch (mkHttp POST ["items"] (VObj [])) sample_world =
      Normal (BadRequest (MissingRequired "name" :: violations)) sample_world.
Proof.
  destruct (post_without_name_rejected (VObj []) sample_world eq_refl)
    as (v & violations & Hrun & _ & Hv).
  exists violations. by rewrite <- (Hv [] eq_refl).
Defined.

(** ** DELETE /items/:id *)

(** C6: a DELETE on an id some item carries answers 200 with the body
    [{ message: "Item <id> has been removed" }] and takes the first such
    item out of the store; on an id no item carries it answers 404 with
    [{ message: "Item <id> not found" }] and leaves the state as it was. *)
Theorem delete_route (id : string) (b : value) (w : World) :
  ((exists item, item ∈ items w /\ Item.id item = id) ->
   exists before removed after w',
     items w = before ++ removed :: after /\
     Item.id removed = id /\
     (forall item, item ∈ before -> Item.id item <> id) /\
     dispatch (mkHttp DELETE ["items"; id] b) w =
       Normal (Replied (mkReply 200 (message ("Item " +:+ id +:+ " has been removed")))) w' /\
     items w' = before ++ after) /\
  ((forall item, item ∈ items w -> Item.id item <> id) ->
   dispatch (mkHttp DELETE ["items"; id] b) w =
     Normal (Replied (mkReply 404 (message ("Item " +:+ id +:+ " not found")))) w).
Proof.
  rewrite route_delete.
  unfold call_handler, controller.deleteItem, mbind, Js_bind. cbn [params IdParams.id].
  split.
  - intros Hpresent.
    destruct (find_present _ _ Hpresent) as (index & removed & Hfind).
    pose proof Hfind as (Hlook & Hid & Hfirst)%find_first.
    exists (take index (items w)), removed, (drop (S index) (items w)).
    eexists.
    split; [symmetry; by apply take_drop_middle |].
    split; [exact Hid |]. split.
    { intros item (j & Hj)%list_elem_of_lookup_1.
      apply lookup_take_Some in Hj as [Hj Hlt]. by eapply Hfirst. }
    rewrite (remove_found _ _ _ _ Hfind).
    split; [reflexivity |]. apply delete_take_drop.
  - intros Habsent.
    by rewrite (remove_absent id w) by by apply find_absent.
Qed.

Lemma delete_route_witness :
  (exists w',
     dispatch (mkHttp DELETE ["items"; "2"] VUndefined) sample_world =
       Normal (Replied (mkReply 200 (message "Item 2 has been removed"))) w' /\
     length (items w') = 2) /\
  dispatch (mkHttp DELETE ["items"; "9"] VUndefined) sample_world =
    Normal (Replied (mkReply 404 (message "Item 9 not found"))) sample_world.
Proof.
  destruct (delete_route "2" VUndefined sample_world) as [Hfound _].
  destruct (delete_route "9" VUndefined sample_world) as [_ Hnone].
  split.
  - destruct Hfound as (before & removed & after & w' & Hsplit & _ & _ & Hrun & Hrest).
    + exists (Item.mk "2" (VStr "Item Two")). split; [| reflexivity].
      right. left.
    + exists w'. split; [exact Hrun |].
      apply (f_equal length) in Hsplit.
      rewrite Hrest, length_app. rewrite length_app in Hsplit.
      cbn in Hsplit. lia.
  - apply Hnone. apply Forall_forall.
    repeat (constructor; [discriminate |]). constructor.
Defined.

(** ** GET /items/:id *)

(** C7: [findId] always returns, without a fault and without touching the
    state; on an id no item carries it returns the absent value and the GET
    answers 404 with [{ message: "Item <id> not found" }]; on an id some
    item carries, the GET answers 200 with the first such item. *)
Theorem get_item_route (id : string) (b : value) (w : World) :
  (exists found, services.findId id w = Normal found w) /\
  ((forall item, item ∈ items w -> Item.id item <> id) ->
   services.findId id w = Normal None w /\
   dispatch (mkHttp GET ["items"; id] b) w =
     Normal (Replied (mkReply 404 (message ("Item " +:+ id +:+ " not found")))) w) /\
  ((exists item, item ∈ items w /\ Item.id item = id) ->
   exists index item,
     items w !! index = Some item /\ Item.id item = id /\
     (forall j item', items w !! j = Some item' -> j < index -> Item.id item' <> id) /\
     services.findId id w = Normal (Some item) w /\
     dispatch (mkHttp GET ["items"; id] b) w =
       Normal (Replied (mkReply 200 (Item.to_value item))) w).
Proof.
  rewrite route_get_item.
  unfold call_handler, controller.getItem, mbind, Js_bind. cbn [params IdParams.id].
  rewrite !findId_run.
  split; [eauto |]. split.
  - intros Habsent%find_absent. by rewrite Habsent.
  - intros Hpresent.
    destruct (find_present _ _ Hpresent) as (index & item & Hfind).
    pose proof Hfind as (Hlook & Hid & Hfirst)%find_first.
    exists index, item. rewrite Hfind. auto.
Qed.

Lemma get_item_route_witness :
  dispatch (mkHttp GET ["items"; "9"] VUndefined) (mkWorld [Item.mk "1" (VStr "Item One")] sample_uuids 0) =
    Normal (Replied (mkReply 404 (message "Item 9 not found")))
           (mkWorld [Item.mk "1" (VStr "Item One")] sample_uuids 0) /\
  exists item,
    dispatch (mkHttp GET ["items"; "1"] VUndefined) (mkWorld [Item.mk "1" (VStr "Item One")] sample_uuids 0) =
      Normal (Replied (mkReply 200 (Item.to_value item)))
             (mkWorld [Item.mk "1" (VStr "Item One")] sample_uuids 0).
Proof.
  pose (w := mkWorld [Item.mk "1" (VStr "Item One")] sample_uuids 0).
  destruct (get_item_route "9" VUndefined w) as (_ & Hnone & _).
  destruct (get_item_route "1" VUndefined w) as (_ & _ & Hfound).
  split.
  - apply Hnone. apply Forall_forall.
    repeat (constructor; [discriminate |]). constructor.
  - destruct Hfound as (index & item & _ & _ & _ & _ & Hrun).
    + exists (Item.mk "1" (VStr "Item One")). split; [left | reflexivity].
    + by exists item.
Defined.

(** ** Ids stay unique along a run *)

(** Nothing in the services compares a new identifier with the stored ones;
    uniqueness of the ids is an invariant of the runs in which the generator
    neither repeats itself nor hits an id of the initial data. *)

Lemma ids_update w index old name :
  items w !! index = Some old ->
  Item.id <$> <[index := Item.mk (Item.id old) name]> (items w) = ids w.
Proof.
  intros Hlook. unfold ids. rewrite list_fmap_insert.
  apply list_insert_id. by rewrite list_lookup_fmap, Hlook.
Qed.

Lemma keeps_ret {A} (a : A) : keeps_unique_ids (mret a).
Proof. intros w Hw. exact Hw. Qed.

Lemma keeps_throw {A} (e : jsError) : keeps_unique_ids (@throw A e).
Proof. intros w Hw. exact Hw. Qed.

Lemma keeps_bind {A B} (m : Js A) (f : A -> Js B) :
  keeps_unique_ids m -> (forall a, keeps_unique_ids (f a)) ->
  keeps_unique_ids (m ≫= f).
Proof.
  intros Hm Hf w Hw. specialize (Hm w Hw).
  unfold mbind, Js_bind. destruct (m w) as [a w' | e w']; cbn in *.
  - by apply Hf.
  - exact Hm.
Qed.

Lemma keeps_getAll : keeps_unique_ids services.getAll.
Proof. intros w Hw. exact Hw. Qed.

Lemma keeps_findId id : keeps_unique_ids (services.findId id).
Proof. intros w Hw. exact Hw. Qed.

Lemma keeps_add name : keeps_unique_ids (services.add name).
Proof.
  intros w (Hnd & Hout & Hinj). rewrite add_run.
  unfold unique_ids, fresh_uuids, ids in *. cbn. rewrite fmap_snoc. cbn.
  split; [| split].
  - apply NoDup_app. split; [exact Hnd |]. split; [| apply NoDup_singleton].
    intros x Hx ->%list_elem_of_singleton. by apply (Hout (uuid_calls w)).
  - intros n Hn. apply not_elem_of_app. split.
    + apply Hout. lia.
    + rewrite list_elem_of_singleton. intros Heq.
      by apply (Hinj (uuid_calls w) n); [lia | lia |].
  - intros m n Hm Hmn. apply Hinj; lia.
Qed.

Lemma keeps_remove id : keeps_unique_ids (services.remove id).
Proof.
  intros w (Hnd & Hout & Hinj).
  destruct (list_find (services.has_id id) (items w)) as [[index item] |] eqn:Hfind.
  - rewrite (remove_found _ _ _ _ Hfind).
    unfold unique_ids, fresh_uuids, ids in *. cbn. rewrite list_fmap_delete.
    split; [| split].
    + eapply sublist_NoDup; [exact Hnd | apply sublist_delete].
    + intros n Hn Hin%list_elem_of_delete_inv. by apply (Hout n).
    + exact Hinj.
  - by rewrite (remove_absent _ _ Hfind).
Qed.

Lemma keeps_update id name : keeps_unique_ids (services.update id name).
Proof.
  intros w Hw.
  destruct (list_find (services.has_id id) (items w)) as [[index item] |] eqn:Hfind.
  - rewrite (update_found _ _ _ _ _ Hfind).
    apply find_first in Hfind as (Hlook & _ & _).
    unfold unique_ids, fresh_uuids, ids in *. cbn.
    by rewrite (ids_update _ _ _ _ Hlook).
  - by rewrite (update_absent _ _ _ Hfind).
Qed.

Lemma keeps_destructure_name b : keeps_unique_ids (destructure_name b).
Proof. destruct b; first [apply keeps_throw | apply keeps_ret]. Qed.

Lemma keeps_handlers r :
  r ∈ itemRoutes -> forall req, keeps_unique_ids (route_handler r req).
Proof.
  unfold itemRoutes. intros Hr.
  repeat (apply elem_of_cons in Hr as [-> | Hr]);
    [| | | | | by apply elem_of_nil in Hr]; intros req; cbn.
  - apply keeps_bind; [apply keeps_getAll | intros; apply keeps_ret].
  - apply keeps_bind; [apply keeps_findId | intros []; apply keeps_ret].
  - apply keeps_bind; [apply keeps_destructure_name | intros name].
    apply keeps_bind; [apply keeps_add | intros; apply keeps_ret].
  - apply keeps_bind; [apply keeps_remove | intros []; apply keeps_ret].
  - apply keeps_bind; [apply keeps_destructure_name | intros name].
    apply keeps_bind; [apply keeps_update | intros []; apply keeps_ret].
Qed.

Lemma keeps_run_route r p b :
  (forall req, keeps_unique_ids (route_handler r req)) ->
  keeps_unique_ids (run_route r p b).
Proof.
  intros Hr.
  assert (Hcall : keeps_unique_ids
            (call_handler (route_handler r) (mkRequest p b))).
  { intros w Hw. specialize (Hr (mkRequest p b) w Hw).
    unfold call_handler. by destruct (route_handler r _ w). }
  unfold run_route. destruct (schema.body _); [| exact Hcall].
  destruct (validator.validate _ _ _); [exact Hcall | apply keeps_ret].
Qed.

Lemma keeps_dispatch_on routes req :
  (forall r, r ∈ routes -> forall req', keeps_unique_ids (route_handler r req')) ->
  keeps_unique_ids (dispatch_on routes req).
Proof.
  induction routes as [| r routes IH]; intros Hroutes; cbn.
  - apply keeps_ret.
  - assert (keeps_unique_ids (dispatch_on routes req)) as Hrest.
    { apply IH. intros r' Hr'. apply Hroutes. by right. }
    case_decide; [| exact Hrest].
    destruct (match_url _ _); [| exact Hrest].
    apply keeps_run_route, Hroutes. left.
Qed.

(** Every request gets a response: a fault of a handler is turned into a
    server error, never passed on. *)
Theorem dispatch_responds (req : http_request) (w : World) :
  exists resp w', dispatch req w = Normal resp w'.
Proof.
  unfold dispatch. induction itemRoutes as [| r routes IH]; cbn.
  - by eexists _, _.
  - case_decide; [| exact IH].
    destruct (match_url _ _) as [p |]; [| exact IH].
    assert (exists resp w',
      call_handler (route_handler r) (mkRequest p (http_body req)) w =
      Normal resp w') as Hcall.
    { unfold call_handler. destruct (route_handler r _ w); by eexists _, _. }
    unfold run_route. destruct (schema.body _); [| exact Hcall].
    destruct (validator.validate _ _ _); [exact Hcall | by eexists _, _].
Qed.

(** Serving a request keeps the ids unique. *)
Theorem dispatch_keeps_unique_ids (req : http_request) :
  keeps_unique_ids (dispatch req).
Proof. apply keeps_dispatch_on. intros r Hr. by apply keeps_handlers. Qed.

Theorem serve_keeps_unique_ids (requests : list http_request) (w : World) :
  unique_ids w -> unique_ids (serve requests w).
Proof.
  revert w. induction requests as [| req rest IH]; intros w Hw; cbn.
  - exact Hw.
  - apply IH. by apply dispatch_keeps_unique_ids.
Qed.

(** X19: along such a run, the id [add] mints is in no record of the
    store. *)
Theorem add_unused_id_along_run (name : value) (requests : list http_request)
    (w : World) :
  unique_ids w ->
  exists item w',
    services.add name (serve requests w) = Normal item w' /\
    forall old, old ∈ items (serve requests w) -> Item.id old <> Item.id item.
Proof.
  intros Hw%(serve_keeps_unique_ids requests).
  destruct Hw as (_ & Hout & _).
  eexists _, _. split; [apply add_run |].
  intros old Hold Heq. apply (Hout (uuid_calls (serve requests w))); [lia |].
  cbn in Heq. rewrite <- Heq. by apply list_elem_of_fmap_2.
Qed.

Lemma zeros_inj m n : zeros m = zeros n -> m = n.
Proof.
  revert n. induction m as [| m IH]; intros [| n] H; try done.
  f_equal. apply IH. by injection H.
Qed.

(** The sample state is one of them. *)
Lemma sample_world_unique_ids : unique_ids sample_world.
Proof.
  split; [| split].
  - apply (bool_decide_unpack _). by vm_compute.
  - intros n _ Hin. cbn in Hin.
    repeat (apply elem_of_cons in Hin as [Hin | Hin]; [discriminate Hin |]).
    by apply elem_of_nil in Hin.
  - intros m n _ Hlt Heq. cbn in Heq.
    apply String.app_inj, zeros_inj in Heq. lia.
Qed.

(** * Further properties of the services and the handlers *)

(** ** More on searching the store *)

Section find_more.
Implicit Types (l : list Item.t) (id : string) (item : Item.t).

(** [findIndex] and [find], one cell at a time. *)
Lemma find_cons l id item :
  list_find (services.has_id id) (item :: l) =
  if decide (Item.id item = id) then Some (0, item)
  else prod_map S (fun x => x) <$> list_find (services.has_id id) l.
Proof. reflexivity. Qed.

Lemma first_with_id_cons l id item :
  snd <$> list_find (services.has_id id) (item :: l) =
  if decide (Item.id item = id) then Some item
  else snd <$> list_find (services.has_id id) l.
Proof.
  rewrite find_cons. case_decide; [reflexivity |].
  by destruct (list_find _ l) as [[] |].
Qed.

(** Writing a new name into the item the search found leaves the search
    at the same index. *)
Lemma find_insert_same_id l id index old name :
  list_find (services.has_id id) l = Some (index, old) ->
  list_find (services.has_id id) (<[index := Item.mk (Item.id old) name]> l) =
  Some (index, Item.mk (Item.id old) name).
Proof.
  intros (Hlook & Hid & Hfirst)%find_first. apply find_first.
  split; [apply list_lookup_insert_eq; by eapply lookup_lt_Some |].
  split; [exact Hid |].
  intros j item' Hj Hlt. rewrite list_lookup_insert_ne in Hj by lia.
  by eapply Hfirst.
Qed.

(** Writing a name into an item of another id does not change what a
    search finds. *)
Lemma find_insert_other l id index old name :
  l !! index = Some old -> Item.id old <> id ->
  list_find (services.has_id id) (<[index := Item.mk (Item.id old) name]> l) =
  list_find (services.has_id id) l.
Proof.
  revert index. induction l as [| x l IH]; intros [| index] Hlook Hne;
    try discriminate Hlook.
  - injection Hlook as ->.
    change (<[0 := ?y]> (old :: l)) with (y :: l).
    rewrite !find_cons. cbn.
    by rewrite !decide_False by exact Hne.
  - change (<[S index := ?y]> (x :: l)) with (x :: <[index := y]> l).
    rewrite !find_cons. by rewrite (IH index Hlook Hne).
Qed.

(** Taking out an item of another id does not change which record a search
    finds. *)
Lemma find_delete_other l id index old :
  l !! index = Some old -> Item.id old <> id ->
  snd <$> list_find (services.has_id id) (delete index l) =
  snd <$> list_find (services.has_id id) l.
Proof.
  revert index. induction l as [| x l IH]; intros [| index] Hlook Hne;
    try discriminate Hlook.
  - injection Hlook as ->. rewrite first_with_id_cons.
    by rewrite decide_False by exact Hne.
  - change (delete (S index) (x :: l)) with (x :: delete index l).
    rewrite !first_with_id_cons. case_decide; [reflexivity |].
    by apply IH.
Qed.

End find_more.

(** ** remove and update locate what findId finds *)

(** X1: on every state, [remove] returns exactly what [findId] returns for
    the id, and [update] returns that record with the new name: the three
    look the record up in the same way, absent together and found
    together. *)
Theorem lookups_agree (id : string) (name : value) (w : World) :
  exists found w1 w2,
    services.findId id w = Normal found w /\
    services.remove id w = Normal found w1 /\
    services.update id name w =
      Normal ((fun item => Item.mk (Item.id item) name) <$> found) w2.
Proof.
  rewrite findId_run.
  destruct (list_find (services.has_id id) (items w)) as [[index item] |] eqn:Hfind.
  - eexists _, _, _. split; [reflexivity |].
    split; [apply (remove_found _ _ _ _ Hfind) |].
    apply (update_found _ _ _ _ _ Hfind).
  - exists None, w, w. split; [reflexivity |].
    split; [apply (remove_absent _ _ Hfind) | apply (update_absent _ _ _ Hfind)].
Qed.

(** ** update, then find *)

(** X2: after [update] on an id some item carries, [findId] on that id
    returns the record with the new name; this holds on every store, also
    one in which several items carry the id. *)
Theorem update_then_findId (id : string) (name : value) (w : World) :
  (exists item, item ∈ items w /\ Item.id item = id) ->
  exists w',
    services.update id name w = Normal (Some (Item.mk id name)) w' /\
    services.findId id w' = Normal (Some (Item.mk id name)) w'.
Proof.
  intros Hpresent.
  destruct (find_present _ _ Hpresent) as (index & old & Hfind).
  pose proof Hfind as (_ & Hid & _)%find_first. subst id.
  eexists. split.
  - apply (update_found _ _ _ _ _ Hfind).
  - rewrite findId_run. cbn.
    by rewrite (find_insert_same_id _ _ _ _ name Hfind).
Qed.

Lemma update_then_findId_witness :
  exists w',
    services.update "2" (VStr "Updated Item Two") sample_world =
      Normal (Some (Item.mk "2" (VStr "Updated Item Two"))) w' /\
    services.findId "2" w' =
      Normal (Some (Item.mk "2" (VStr "Updated Item Two"))) w'.
Proof.
  apply (update_then_findId "2" (VStr "Updated Item Two") sample_world).
  exists (Item.mk "2" (VStr "Item Two")). split; [| reflexivity].
  right. left.
Defined.

(** X3: the last [update] of an id wins: updating with one name and then
    with another leaves the result and the state of updating with the
    second alone, found or not; in particular updating twice with the same
    name changes nothing the second time. *)
Theorem update_last_write_wins (id : string) (name1 name2 : value) (w : World) :
  exists r1 w1,
    services.update id name1 w = Normal r1 w1 /\
    services.update id name2 w1 = services.update id name2 w /\
    services.update id name1 w1 = Normal r1 w1.
Proof.
  destruct (list_find (services.has_id id) (items w)) as [[index old] |] eqn:Hfind.
  - eexists _, _. split; [apply (update_found _ _ _ _ _ Hfind) |].
    assert (Hagain : forall name,
      services.update id name
        (set_items w (<[index := Item.mk (Item.id old) name1]> (items w))) =
      Normal (Some (Item.mk (Item.id old) name))
        (set_items w (<[index := Item.mk (Item.id old) name]> (items w)))).
    { intros name.
      rewrite (update_found id name _ index (Item.mk (Item.id old) name1))
        by apply (find_insert_same_id _ _ _ _ _ Hfind).
      cbn. unfold set_items. cbn. by rewrite list_insert_insert_eq. }
    split; [| apply Hagain].
    rewrite Hagain. symmetry. apply (update_found _ _ _ _ _ Hfind).
  - exists None, w. rewrite !(update_absent _ _ _ Hfind). auto.
Qed.

(** ** What the writers leave alone *)

(** X4: [update] never changes which ids the store holds, nor their order,
    and it draws no identifier; and for every other id, [findId] returns
    after the update exactly what it returned before. *)
Theorem update_leaves_other_ids (id : string) (name : value) (w : World) :
  exists r w',
    services.update id name w = Normal r w' /\
    ids w' = ids w /\
    uuid_calls w' = uuid_calls w /\
    forall id', id' <> id ->
      exists found,
        services.findId id' w = Normal found w /\
        services.findId id' w' = Normal found w'.
Proof.
  destruct (list_find (services.has_id id) (items w)) as [[index old] |] eqn:Hfind.
  - pose proof Hfind as (Hlook & Hid & _)%find_first.
    eexists _, _. split; [apply (update_found _ _ _ _ _ Hfind) |].
    split; [apply (ids_update _ _ _ _ Hlook) |]. split; [reflexivity |].
    intros id' Hne. eexists. split; [apply findId_run |].
    rewrite findId_run. cbn.
    rewrite (find_insert_other _ id' _ _ _ Hlook) by congruence.
    reflexivity.
  - exists None, w. split; [apply (update_absent _ _ _ Hfind) |].
    split; [reflexivity |]. split; [reflexivity |].
    intros id' _. eexists. split; apply findId_run.
Qed.

(** X5: [remove] draws no identifier and, for every other id, [findId]
    returns after the removal the record it returned before. *)
Theorem remove_leaves_other_ids (id : string) (w : World) :
  exists r w',
    services.remove id w = Normal r w' /\
    uuid_calls w' = uuid_calls w /\
    forall id', id' <> id ->
      exists found,
        services.findId id' w = Normal found w /\
        services.findId id' w' = Normal found w'.
Proof.
  destruct (list_find (services.has_id id) (items w)) as [[index old] |] eqn:Hfind.
  - pose proof Hfind as (Hlook & Hid & _)%find_first.
    eexists _, _. split; [apply (remove_found _ _ _ _ Hfind) |].
    split; [reflexivity |].
    intros id' Hne. eexists. split; [apply findId_run |].
    rewrite findId_run. cbn.
    rewrite (find_delete_other _ id' _ _ Hlook) by congruence.
    reflexivity.
  - exists None, w. split; [apply (remove_absent _ _ Hfind) |].
    split; [reflexivity |].
    intros id' _. eexists. split; apply findId_run.
Qed.

(** X6: [add] hides no record: whatever [findId] found for an id before the
    call it finds after it, also when the new record carries that very id;
    and an id that was absent stays absent unless it is the one just
    minted. *)
Theorem add_leaves_lookups (name : value) (w : World) :
  exists item w',
    services.add name w = Normal item w' /\
    (forall id found,
       services.findId id w = Normal (Some found) w ->
       services.findId id w' = Normal (Some found) w') /\
    (forall id,
       id <> Item.id item ->
       services.findId id w = Normal None w ->
       services.findId id w' = Normal None w').
Proof.
  eexists _, _. split; [apply add_run |]. cbn. split.
  - intros id found. rewrite !findId_run. cbn. intros Hfound.
    injection Hfound as Hfound.
    destruct (list_find (services.has_id id) (items w)) as [[index x] |] eqn:Hfind;
      [| discriminate Hfound].
    cbn in Hfound. injection Hfound as ->.
    by rewrite (list_find_app_l _ _ _ _ _ Hfind).
  - intros id Hne. rewrite !findId_run. cbn. intros Hnone.
    injection Hnone as Hnone.
    destruct (list_find (services.has_id id) (items w)) as [[index x] |] eqn:Hfind;
      [discriminate Hnone |].
    rewrite list_find_app_r by exact Hfind.
    rewrite find_cons. cbn. by rewrite decide_False by congruence.
Qed.

Lemma add_leaves_lookups_witness :
  exists item w',
    services.add (VStr "Jerome") sample_world = Normal item w' /\
    services.findId "2" w' = Normal (Some (Item.mk "2" (VStr "Item Two"))) w' /\
    services.findId "9" w' = Normal None w'.
Proof.
  destruct (add_leaves_lookups (VStr "Jerome") sample_world)
    as (item & w' & Hrun & Hkept & Habsent).
  exists item, w'. split; [exact Hrun |]. split.
  - apply Hkept. reflexivity.
  - apply Habsent; [| reflexivity].
    rewrite (add_run (VStr "Jerome") sample_world) in Hrun.
    injection Hrun as <- _. discriminate.
Defined.

(** ** create, then remove *)

(** X7: when no item carries the identifier minted, removing the id [add]
    returned gives back the record just added and leaves the store with
    exactly the items it had before the [add]; only the count of
    identifiers drawn has moved, by one. *)
Theorem add_then_remove (name : value) (w : World) :
  (forall old, old ∈ items w -> Item.id old <> uuid_stream w (uuid_calls w)) ->
  exists item w1 w2,
    services.add name w = Normal item w1 /\
    services.remove (Item.id item) w1 = Normal (Some item) w2 /\
    items w2 = items w /\
    uuid_stream w2 = uuid_stream w /\
    uuid_calls w2 = S (uuid_calls w).
Proof.
  intros Hfresh.
  set (item := Item.mk (uuid_stream w (uuid_calls w)) name).
  assert (Hfind : list_find (services.has_id (Item.id item)) (items w ++ [item]) =
                  Some (length (items w), item)).
  { rewrite list_find_app_r by by apply find_absent.
    rewrite find_cons. by rewrite decide_True by reflexivity. }
  eexists _, _, _. split; [apply add_run |].
  split; [apply remove_found; exact Hfind |]. cbn.
  split; [| done].
  etrans; [exact (delete_middle (items w) [] item) | apply app_nil_r].
Qed.

Lemma add_then_remove_witness :
  exists item w1 w2,
    services.add (VStr "Jerome") sample_world = Normal item w1 /\
    services.remove (Item.id item) w1 = Normal (Some item) w2 /\
    items w2 = sample_items.
Proof.
  destruct (add_then_remove (VStr "Jerome") sample_world)
    as (item & w1 & w2 & Hadd & Hremove & Hitems & _).
  - apply Forall_forall.
    repeat (constructor; [discriminate |]). constructor.
  - by exists item, w1, w2.
Defined.

(** ** Runs of requests *)

(** X8: the ids of the store stay pairwise distinct along every run of
    requests that starts in a state with distinct ids whose generator
    neither repeats an identifier nor hands out a stored one. *)
Theorem run_keeps_ids_distinct (requests : list http_request) (w : World) :
  unique_ids w -> NoDup (ids (serve requests w)).
Proof. intros Hw. by apply (serve_keeps_unique_ids requests w). Qed.

Lemma run_keeps_ids_distinct_witness :
  NoDup (ids (serve [ mkHttp POST ["items"] (VObj [("name", VStr "Jerome")]);
                      mkHttp DELETE ["items"; "2"] VUndefined;
                      mkHttp PUT ["items"; "1"] (VObj []);
                      mkHttp POST ["items"] (VObj [("name", VStr "Jerome")]) ]
                    sample_world)).
Proof. apply run_keeps_ids_distinct, sample_world_unique_ids. Defined.

Lemma add_unused_id_along_run_witness :
  exists item w',
    services.add (VStr "Jerome")
      (serve [ mkHttp POST ["items"] (VObj [("name", VStr "Jerome")]);
               mkHttp DELETE ["items"; "2"] VUndefined ] sample_world) =
      Normal item w' /\
    forall old,
      old ∈ items (serve [ mkHttp POST ["items"] (VObj [("name", VStr "Jerome")]);
                           mkHttp DELETE ["items"; "2"] VUndefined ] sample_world) ->
      Item.id old <> Item.id item.
Proof. apply add_unused_id_along_run, sample_world_unique_ids. Defined.

(** ** PUT /items/:id *)

Lemma destructure_name_defined b w :
  b <> VUndefined -> b <> VNull ->
  destructure_name b w = Normal (get_prop b "name") w.
Proof. by destruct b. Qed.

Lemma updateItem_run id b w :
  b <> VUndefined -> b <> VNull ->
  controller.updateItem (mkRequest (IdParams.mk id) b) w =
  match services.update id (get_prop b "name") w with
  | Normal (Some updated) w' => Normal (mkReply 200 (Item.to_value updated)) w'
  | Normal None w' =>
      Normal (mkReply 404 (message ("Item " +:+ id +:+ " not found"))) w'
  | Abrupt e w' => Abrupt e w'
  end.
Proof.
  intros Hundef Hnull.
  unfold controller.updateItem, mbind, Js_bind. cbn [params body IdParams.id].
  rewrite (destructure_name_defined _ _ Hundef Hnull).
  by destruct (services.update _ _ _) as [[] |].
Qed.



(** X10: after such a PUT on an id some item carries, a GET on that id
    answers 200 with the very payload the PUT answered, on every store. *)
Theorem put_then_get (id : string) (b b' : value) (w : World) :
  b <> VUndefined -> b <> VNull ->
  (exists item, item ∈ items w /\ Item.id item = id) ->
  exists updated w',
    dispatch (mkHttp PUT ["items"; id] b) w = Normal (Replied (mkReply 200 updated)) w' /\
    updated = Item.to_value (Item.mk id (get_prop b "name")) /\
    dispatch (mkHttp GET ["items"; id] b') w' = Normal (Replied (mkReply 200 updated)) w'.
Proof.
  intros Hundef Hnull Hpresent.
  destruct (find_present _ _ Hpresent) as (index & old & Hfind).
  pose proof Hfind as (_ & Hid & _)%find_first. subst id.
  eexists _, _. split; [| split; [reflexivity |]].
  - rewrite route_put. unfold call_handler.
    rewrite (updateItem_run _ _ _ Hundef Hnull).
    by rewrite (update_found _ _ _ _ _ Hfind).
  - rewrite route_get_item.
    unfold call_handler, controller.getItem, mbind, Js_bind.
    cbn [params IdParams.id]. rewrite findId_run. cbn [items set_items].
    by rewrite (find_insert_same_id _ _ _ _ _ Hfind).
Qed.

Lemma put_then_get_witness :
  exists updated w',
    dispatch (mkHttp PUT ["items"; "2"] (VObj [("name", VStr "Updated Item Two")]))
      sample_world = Normal (Replied (mkReply 200 updated)) w' /\
    updated = Item.to_value (Item.mk "2" (VStr "Updated Item Two")) /\
    dispatch (mkHttp GET ["items"; "2"] VUndefined) w' =
      Normal (Replied (mkReply 200 updated)) w'.
Proof.
  apply (put_then_get "2" (VObj [("name", VStr "Updated Item Two")]) VUndefined
           sample_world); [done | done |].
  exists (Item.mk "2" (VStr "Item Two")). split; [| reflexivity].
  right. left.
Defined.

(** X11: [updateItem] reads [name] off the body before it looks the id up:
    on a request without a body ([undefined], or [null]) the handler throws
    a [TypeError] and the state is untouched, whether or not an item carries
    the id; the PUT is answered with a server error, not with a 404. *)
Theorem put_without_body_faults (id : string) (b : value) (w : World) :
  b = VUndefined \/ b = VNull ->
  exists e,
    controller.updateItem (mkRequest (IdParams.mk id) b) w = Abrupt e w /\
    dispatch (mkHttp PUT ["items"; id] b) w = Normal (ServerError e) w /\
    status (ServerError e) = 500.
Proof.
  intros [-> | ->]; eexists; (split; [reflexivity | split; reflexivity]).
Qed.

Lemma put_without_body_faults_witness :
  exists e,
    controller.updateItem (mkRequest (IdParams.mk "999") VUndefined) sample_world =
      Abrupt e sample_world /\
    dispatch (mkHttp PUT ["items"; "999"] VUndefined) sample_world =
      Normal (ServerError e) sample_world.
Proof.
  destruct (put_without_body_faults "999" VUndefined sample_world)
    as (e & Hthrow & Hrun & _); [by left |].
  by exists e.
Defined.

(** ** POST /items, then GET /items *)

(** A body that is an object whose [name] is a string passes the body
    contract of [addItemSchema]. *)
Lemma add_body_accepted fields s :
  assoc "name" fields = Some (VStr s) ->
  validator.validate "body" (SObject ["name"] [("name", SString)]) (VObj fields) = [].
Proof.
  intros Hname. cbn [validator.validate]. unfold validator.missing.
  rewrite filter_cons_False by (cbn; rewrite Hname; discriminate).
  rewrite Hname. reflexivity.
Qed.

(** X12: a POST whose body is an object with a string [name] answers 201
    with the record made of the identifier drawn and of that name; the
    record is the new last item of the store, exactly one identifier has
    been drawn, and a GET on /items then answers 200 with the items the
    store had, in their order, followed by the new record. *)
Theorem post_then_list (fields : list (string * value)) (s : string)
    (b' : value) (w : World) :
  assoc "name" fields = Some (VStr s) ->
  exists item w',
    item = Item.mk (uuid_stream w (uuid_calls w)) (VStr s) /\
    dispatch (mkHttp POST ["items"] (VObj fields)) w =
      Normal (Replied (mkReply 201 (Item.to_value item))) w' /\
    items w' = items w ++ [item] /\
    uuid_calls w' = S (uuid_calls w) /\
    dispatch (mkHttp GET ["items"] b') w' =
      Normal (Replied (mkReply 200
                (VArr ((Item.to_value <$> items w) ++ [Item.to_value item])))) w'.
Proof.
  intros Hname. eexists _, _. split; [reflexivity |]. split.
  - rewrite route_post, (add_body_accepted _ _ Hname).
    unfold call_handler, controller.addItem, mbind, Js_bind.
    cbn [body destructure_name get_prop]. rewrite Hname. reflexivity.
  - split; [reflexivity |]. split; [reflexivity |].
    rewrite route_get_items.
    change [Item.to_value ?x] with (Item.to_value <$> [x]).
    by rewrite <- fmap_app.
Qed.

Lemma post_then_list_witness :
  exists item w',
    dispatch (mkHttp POST ["items"] (VObj [("name", VStr "Jerome")]))
      (mkWorld [] sample_uuids 0) =
      Normal (Replied (mkReply 201 (Item.to_value item))) w' /\
    dispatch (mkHttp GET ["items"] VUndefined) w' =
      Normal (Replied (mkReply 200 (VArr [Item.to_value item]))) w'.
Proof.
  destruct (post_then_list [("name", VStr "Jerome")] "Jerome" VUndefined
              (mkWorld [] sample_uuids 0) eq_refl)
    as (item & w' & _ & Hpost & _ & _ & Hget).
  by exists item, w'.
Defined.

(** ** The status codes of the handlers *)

(** X13: whatever the request and the state, a handler of the table that
    replies does so with 200, 201 or 404; 201 comes from the POST handler
    only, and the POST handler answers nothing else. *)
Theorem handler_status_codes (r : route) (req : request (route_params r))
    (w w' : World) (rep : reply) :
  r ∈ itemRoutes ->
  route_handler r req w = Normal rep w' ->
  (statusCode rep = 200 \/ statusCode rep = 201 \/ statusCode rep = 404) /\
  (statusCode rep = 201 <-> route_method r = POST).
Proof.
  unfold itemRoutes. intros Hr.
  repeat (apply elem_of_cons in Hr as [-> | Hr]);
    [| | | | | by apply elem_of_nil in Hr]; cbn in req |- *.
  - intros [= <- _]. cbn. split; [by left |]. split; discriminate.
  - unfold controller.getItem, mbind, Js_bind. rewrite findId_run.
    destruct (list_find _ _) as [[] |]; intros [= <- _]; cbn;
      (split; [auto | split; discriminate]).
  - unfold controller.addItem, mbind, Js_bind.
    destruct (destructure_name _ w) as [name w1 | e w1]; [| discriminate].
    rewrite add_run. intros [= <- _]. cbn. split; [auto | done].
  - unfold controller.deleteItem, mbind, Js_bind.
    destruct (list_find (services.has_id (IdParams.id (params req))) (items w))
      as [[index item] |] eqn:Hfind.
    + rewrite (remove_found _ _ _ _ Hfind). intros [= <- _]. cbn.
      split; [auto | split; discriminate].
    + rewrite (remove_absent _ _ Hfind). intros [= <- _]. cbn.
      split; [auto | split; discriminate].
  - unfold controller.updateItem, mbind, Js_bind.
    destruct (destructure_name _ w) as [name w1 | e w1] eqn:Hname; [| discriminate].
    assert (w1 = w) as ->.
    { destruct (body req); first [discriminate Hname | by injection Hname]. }
    destruct (list_find (services.has_id (IdParams.id (params req))) (items w))
      as [[index item] |] eqn:Hfind.
    + rewrite (update_found _ _ _ _ _ Hfind). intros [= <- _]. cbn.
      split; [auto | split; discriminate].
    + rewrite (update_absent _ _ _ Hfind). intros [= <- _]. cbn.
      split; [auto | split; discriminate].
Qed.

Lemma handler_status_codes_witness :
  statusCode (mkReply 404 (message "Item 9 not found")) = 200 \/
  statusCode (mkReply 404 (message "Item 9 not found")) = 201 \/
  statusCode (mkReply 404 (message "Item 9 not found")) = 404.
Proof.
  refine (proj1 (handler_status_codes
    (mkRoute DELETE IdParams.t item_url schema.deleteItemSchema controller.deleteItem)
    (mkRequest (IdParams.mk "9") VUndefined) sample_world sample_world
    (mkReply 404 (message "Item 9 not found")) _ _)).
  - do 3 right. left.
  - reflexivity.
Defined.

(** ** Requests the table does not route *)

(** X14: the plugin registers PUT and DELETE on /items/:id only and POST on
    /items only: a PUT or a DELETE on /items, a POST on /items/:id and any
    request on the empty path match no route, run no handler and leave the
    state as it was. *)
Theorem unrouted_requests (id : string) (b : value) (w : World) :
  dispatch (mkHttp PUT ["items"] b) w = Normal NoRoute w /\
  dispatch (mkHttp DELETE ["items"] b) w = Normal NoRoute w /\
  dispatch (mkHttp POST ["items"; id] b) w = Normal NoRoute w /\
  (forall m, dispatch (mkHttp m [] b) w = Normal NoRoute w) /\
  (forall m id', dispatch (mkHttp m ["items"; id; id'] b) w = Normal NoRoute w).
Proof.
  repeat split; try reflexivity; by intros [].
Qed.

(** ** DELETE /items/:id, then GET and DELETE again *)

Lemma deleteItem_run id b w :
  controller.deleteItem (mkRequest (IdParams.mk id) b) w =
  match services.remove id w with
  | Normal (Some _) w' =>
      Normal (mkReply 200 (message ("Item " +:+ id +:+ " has been removed"))) w'
  | Normal None w' =>
      Normal (mkReply 404 (message ("Item " +:+ id +:+ " not found"))) w'
  | Abrupt e w' => Abrupt e w'
  end.
Proof.
  unfold controller.deleteItem, mbind, Js_bind. cbn [params IdParams.id].
  by destruct (services.remove _ _) as [[] |].
Qed.

(** X15: in a store whose ids are pairwise distinct, once a DELETE on an id
    some item carries has answered 200, a GET on that id and a second
    DELETE on it both answer 404 with [{ message: "Item <id> not found" }],
    and neither changes the state the first DELETE left. *)
Theorem delete_then_gone (id : string) (b b1 b2 : value) (w : World) :
  NoDup (Item.id <$> items w) ->
  (exists item, item ∈ items w /\ Item.id item = id) ->
  exists w',
    dispatch (mkHttp DELETE ["items"; id] b) w =
      Normal (Replied (mkReply 200 (message ("Item " +:+ id +:+ " has been removed")))) w' /\
    dispatch (mkHttp GET ["items"; id] b1) w' =
      Normal (Replied (mkReply 404 (message ("Item " +:+ id +:+ " not found")))) w' /\
    dispatch (mkHttp DELETE ["items"; id] b2) w' =
      Normal (Replied (mkReply 404 (message ("Item " +:+ id +:+ " not found")))) w'.
Proof.
  intros Hnd Hpresent.
  destruct (find_present _ _ Hpresent) as (index & removed & Hfind).
  pose proof Hfind as (Hlook & Hid & _)%find_first.
  assert (Hgone : list_find (services.has_id id) (delete index (items w)) = None).
  { apply find_absent. by eapply delete_unique_id. }
  eexists. rewrite !route_delete, route_get_item. unfold call_handler.
  rewrite !deleteItem_run. rewrite (remove_found _ _ _ _ Hfind).
  split; [reflexivity |]. split.
  - unfold controller.getItem, mbind, Js_bind. cbn [params IdParams.id].
    rewrite findId_run. cbn [items set_items]. by rewrite Hgone.
  - by rewrite (remove_absent id (set_items w _)) by exact Hgone.
Qed.

Lemma delete_then_gone_witness :
  exists w',
    dispatch (mkHttp DELETE ["items"; "2"] VUndefined) sample_world =
      Normal (Replied (mkReply 200 (message "Item 2 has been removed"))) w' /\
    dispatch (mkHttp GET ["items"; "2"] VUndefined) w' =
      Normal (Replied (mkReply 404 (message "Item 2 not found"))) w' /\
    dispatch (mkHttp DELETE ["items"; "2"] VUndefined) w' =
      Normal (Replied (mkReply 404 (message "Item 2 not found"))) w'.
Proof.
  apply (delete_then_gone "2" VUndefined VUndefined VUndefined sample_world).
  - apply (bool_decide_unpack _). by vm_compute.
  - exists (Item.mk "2" (VStr "Item Two")). split; [| reflexivity].
    right. left.
Defined.

(** ** POST /items, then DELETE the new id *)

(** X16: when no item carries the identifier drawn, a POST with a string
    [name] followed by a DELETE on the id the POST answered gives 201, then
    200 with [{ message: "Item <id> has been removed" }], and the store
    holds again exactly the items it held before the POST. *)
Theorem post_then_delete (fields : list (string * value)) (s : string)
    (b' : value) (w : World) :
  assoc "name" fields = Some (VStr s) ->
  (forall old, old ∈ items w -> Item.id old <> uuid_stream w (uuid_calls w)) ->
  exists id w1 w2,
    id = uuid_stream w (uuid_calls w) /\
    dispatch (mkHttp POST ["items"] (VObj fields)) w =
      Normal (Replied (mkReply 201 (Item.to_value (Item.mk id (VStr s))))) w1 /\
    dispatch (mkHttp DELETE ["items"; id] b') w1 =
      Normal (Replied (mkReply 200 (message ("Item " +:+ id +:+ " has been removed")))) w2 /\
    items w2 = items w.
Proof.
  intros Hname Hfresh.
  set (item := Item.mk (uuid_stream w (uuid_calls w)) (VStr s)).
  assert (Hfind : list_find (services.has_id (Item.id item)) (items w ++ [item]) =
                  Some (length (items w), item)).
  { rewrite list_find_app_r by by apply find_absent.
    rewrite find_cons. by rewrite decide_True by reflexivity. }
  eexists _, _, _. split; [reflexivity |]. split; [| split].
  - rewrite route_post, (add_body_accepted _ _ Hname).
    unfold call_handler, controller.addItem, mbind, Js_bind.
    cbn [body destructure_name get_prop]. rewrite Hname. reflexivity.
  - rewrite route_delete. unfold call_handler. rewrite deleteItem_run.
    rewrite (remove_found _ _ (length (items w)) item) by exact Hfind.
    reflexivity.
  - cbn [items set_items].
    etrans; [exact (delete_middle (items w) [] item) | apply app_nil_r].
Qed.

Lemma post_then_delete_witness :
  exists id w1 w2,
    dispatch (mkHttp POST ["items"] (VObj [("name", VStr "Jerome")])) sample_world =
      Normal (Replied (mkReply 201 (Item.to_value (Item.mk id (VStr "Jerome"))))) w1 /\
    dispatch (mkHttp DELETE ["items"; id] VUndefined) w1 =
      Normal (Replied (mkReply 200 (message ("Item " +:+ id +:+ " has been removed")))) w2 /\
    items w2 = sample_items.
Proof.
  destruct (post_then_delete [("name", VStr "Jerome")] "Jerome" VUndefined
              sample_world eq_refl)
    as (id & w1 & w2 & _ & Hpost & Hdelete & Hitems).
  - apply Forall_forall.
    repeat (constructor; [discriminate |]). constructor.
  - by exists id, w1, w2.
Defined.

(** ** The names stay strings *)

(** What a body that passes the contract of [addItemSchema] looks like. *)
Lemma add_body_valid b :
  validator.validate "body" (SObject ["name"] [("name", SString)]) b = [] ->
  exists s, get_prop b "name" = VStr s.
Proof.
  destruct b as [| | | | | | fields]; try discriminate.
  cbn [validator.validate]. unfold validator.missing. cbn [get_prop].
  destruct (assoc "name" fields) as [v |] eqn:Hname; cbn [default].
  - destruct v; cbn; rewrite Hname; cbn; first [discriminate | eauto].
  - cbn. rewrite Hname. cbn. discriminate.
Qed.

Lemma dispatch_on_invariant (I : World -> Prop) routes req :
  (forall r p, r ∈ routes -> route_method r = http_method_of req ->
     forall w, I w -> I (world_after (run_route r p (http_body req) w))) ->
  forall w, I w -> I (world_after (dispatch_on routes req w)).
Proof.
  induction routes as [| r routes IH]; intros Hroutes w Hw; cbn.
  - exact Hw.
  - assert (I (world_after (dispatch_on routes req w))) as Hrest.
    { apply IH; [| exact Hw]. intros r' p Hr'. apply Hroutes. by right. }
    case_decide; [| exact Hrest].
    destruct (match_url _ _) as [p |]; [| exact Hrest].
    apply Hroutes; [left | done | exact Hw].
Qed.

(** X17: no request but a PUT can leave a record without a string for a
    name: when every name of the store is a string, it is so again after
    any GET, POST or DELETE, whatever the path and the body (a POST is
    either rejected or stores the string it was given). *)
Theorem names_stay_strings (req : http_request) (w : World) :
  http_method_of req <> PUT ->
  string_names w ->
  string_names (world_after (dispatch req w)).
Proof.
  intros Hmethod. unfold dispatch. apply dispatch_on_invariant.
  clear w. intros r p Hr Hsame w Hw. unfold itemRoutes in Hr.
  repeat (apply elem_of_cons in Hr as [-> | Hr]);
    [| | | | | by apply elem_of_nil in Hr];
    cbn in p, Hsame; unfold run_route;
    cbn [route_schema route_handler schema.body schema.getItemsSchema
         schema.getItemSchema schema.addItemSchema schema.deleteItemSchema
         schema.updateItemSchema].
  - exact Hw.
  - unfold call_handler, controller.getItem, mbind, Js_bind.
    rewrite findId_run. by destruct (list_find _ _) as [[] |].
  - destruct (validator.validate "body" _ (http_body req)) eqn:Hvalid; [| exact Hw].
    apply add_body_valid in Hvalid as [s Hname].
    unfold call_handler, controller.addItem, mbind, Js_bind. cbn [body].
    assert (destructure_name (http_body req) w = Normal (VStr s) w) as ->.
    { destruct (http_body req); try discriminate Hname; cbn in *; by rewrite Hname. }
    rewrite add_run. cbn. unfold string_names. cbn.
    apply Forall_app. split; [exact Hw |]. apply Forall_singleton. eauto.
  - destruct p as [id]. unfold call_handler. rewrite deleteItem_run.
    destruct (list_find (services.has_id id) (items w))
      as [[index item] |] eqn:Hfind.
    + rewrite (remove_found _ _ _ _ Hfind). cbn. by apply Forall_delete.
    + by rewrite (remove_absent _ _ Hfind).
  - by destruct Hmethod.
Qed.

Lemma names_stay_strings_witness :
  string_names
    (world_after (dispatch (mkHttp POST ["items"] (VObj [("name", VStr "Jerome")]))
                           sample_world)).
Proof.
  apply names_stay_strings; [discriminate |].
  repeat (constructor; [eauto |]). constructor.
Defined.

(** ** The replies have the declared shape *)





